(** * The fences JSON-Schema normalizer ([fences/json_schema/normlaize.py])

    A shallow embedding of the normalizer over an explicit Python object
    store.  Dicts and lists are heap objects reached through references, so
    that the in-place updates of the source ([schema[kw][idx] = ...],
    [prefix_items_b += ...], [props[name] = ...]) and the aliasing they act
    on are part of the model.

    Conventions of the embedding:
    - JSON numbers are integers ([Z]); floats are not represented.
    - strings are sequences of code points below 256;
    - a keyword whose value has another JSON type than the one the code
      handles raises [TypeError] (Python's duck typing of such values, e.g.
      [max] of two strings, is not reproduced);
    - [list(set(a) | set(b))] and [list(set(a) & set(b))] are given the
      first-occurrence order (Python leaves the order unspecified);
    - recursion is bounded by a fuel argument; [OutOfFuel] is not a Python
      exception: it stands for a call that has not returned yet. *)

From Stdlib Require Import ZArith NArith Bool Lia.
From Stdlib Require Import Ascii.
From Stdlib Require String.
From stdpp Require Import base list strings.
Set Warnings "-register-all".

(** ** Values and the object store *)

Inductive value : Type :=
| VNone
| VBool (b : bool)
| VNum (n : Z)
| VStr (s : string)
| VRef (a : nat).

Inductive obj : Type :=
| ODict (d : list (string * value))
| OList (l : list value).

Abbreviation heap := (list obj).

(** Pure JSON trees, used to write inputs and to read results back. *)
Inductive json : Type :=
| JNull
| JBool (b : bool)
| JNum (n : Z)
| JStr (s : string)
| JArr (l : list json)
| JObj (d : list (string * json)).

Definition value_eqb (v w : value) : bool :=
  match v, w with
  | VNone, VNone => true
  | VBool a, VBool b => Bool.eqb a b
  | VNum a, VNum b => Z.eqb a b
  | VStr a, VStr b => String.eqb a b
  | VRef a, VRef b => Nat.eqb a b
  | _, _ => false
  end.

(** ** Exceptions and the state-and-error monad *)

Inductive reason : Type :=
| SchemaNotBoolOrDict
| DoNotKnowHowToMerge (key : string)
| MustBeADict
| OneKeyNotAnyOf
| AnyOfMustBeList
| NotAllowedInSubSchema (key : string) (idx : nat)
| OtherKeysBesideRef (idx : nat)
| UnresolvedRef.

Inductive exn : Type :=
| NormalizationException (r : reason)
| TypeError
| AttributeError
| KeyError (k : string)
| IndexError
| AssertionError
| ValueError
| ZeroDivisionError.

Inductive outcome (A : Type) : Type :=
| Ok (a : A) (h : heap)
| Raise (e : exn)
| OutOfFuel.
Arguments Ok {A} a h.
Arguments Raise {A} e.
Arguments OutOfFuel {A}.

Definition M (A : Type) : Type := heap -> outcome A.

Definition ret {A} (a : A) : M A := fun h => Ok a h.
Definition raise {A} (e : exn) : M A := fun _ => Raise e.
Definition out_of_fuel {A} : M A := fun _ => OutOfFuel.
Definition bind {A B} (m : M A) (k : A -> M B) : M B :=
  fun h => match m h with
           | Ok a h' => k a h'
           | Raise e => Raise e
           | OutOfFuel => OutOfFuel
           end.

Declare Scope py_scope.
Delimit Scope py_scope with py.
Notation "x <- m ;; k" := (bind m (fun x => k))
  (at level 90, m at level 80, right associativity) : py_scope.
Notation "m ;;; k" := (bind m (fun _ => k))
  (at level 90, right associativity) : py_scope.
Local Open Scope py_scope.

Definition get_heap : M heap := fun h => Ok h h.

(** Loops over a snapshot of a Python sequence. *)
Fixpoint for_each {A} (xs : list A) (body : A -> M unit) : M unit :=
  match xs with
  | [] => ret tt
  | x :: xs' => body x ;;; for_each xs' body
  end.

Fixpoint map_m {A B} (f : A -> M B) (xs : list A) : M (list B) :=
  match xs with
  | [] => ret []
  | x :: xs' => y <- f x ;; ys <- map_m f xs' ;; ret (y :: ys)
  end.

(** ** Ordered dicts as association lists *)

Fixpoint dict_get (d : list (string * value)) (k : string) : option value :=
  match d with
  | [] => None
  | (k', v) :: d' => if String.eqb k' k then Some v else dict_get d' k
  end.

Definition dict_mem (d : list (string * value)) (k : string) : bool :=
  match dict_get d k with Some _ => true | None => false end.

(** [d[k] = v]: an existing key keeps its position, a new key is appended. *)
Fixpoint dict_set (d : list (string * value)) (k : string) (v : value)
  : list (string * value) :=
  match d with
  | [] => [(k, v)]
  | (k', v') :: d' =>
      if String.eqb k' k then (k', v) :: d' else (k', v') :: dict_set d' k v
  end.

Fixpoint dict_del (d : list (string * value)) (k : string)
  : list (string * value) :=
  match d with
  | [] => []
  | (k', v') :: d' =>
      if String.eqb k' k then dict_del d' k else (k', v') :: dict_del d' k
  end.

Definition dict_keys (d : list (string * value)) : list string := map fst d.

(** ** Object-store primitives *)

Definition alloc (o : obj) : M value :=
  fun h => Ok (VRef (length h)) (h ++ [o]).

Definition new_dict (d : list (string * value)) : M value := alloc (ODict d).
Definition new_list (l : list value) : M value := alloc (OList l).

(** Reading [v] as a dict: only a reference to a dict object is one. *)
Definition as_dict (v : value) : M (list (string * value)) :=
  fun h => match v with
           | VRef a => match h !! a with
                       | Some (ODict d) => Ok d h
                       | _ => Raise AttributeError
                       end
           | _ => Raise AttributeError
           end.

Definition as_list (v : value) : M (list value) :=
  fun h => match v with
           | VRef a => match h !! a with
                       | Some (OList l) => Ok l h
                       | _ => Raise TypeError
                       end
           | _ => Raise TypeError
           end.

Definition is_dict (v : value) : M bool :=
  fun h => match v with
           | VRef a => match h !! a with
                       | Some (ODict _) => Ok true h
                       | _ => Ok false h
                       end
           | _ => Ok false h
           end.

Definition is_list (v : value) : M bool :=
  fun h => match v with
           | VRef a => match h !! a with
                       | Some (OList _) => Ok true h
                       | _ => Ok false h
                       end
           | _ => Ok false h
           end.

(** [d[k] = v] on the dict object [dv]. *)
Definition dict_store (dv : value) (k : string) (v : value) : M unit :=
  fun h => match dv with
           | VRef a => match h !! a with
                       | Some (ODict d) =>
                           Ok tt (<[a := ODict (dict_set d k v)]> h)
                       | _ => Raise TypeError
                       end
           | _ => Raise TypeError
           end.

(** [l[i] = v] on the list object [lv]. *)
Definition list_store (lv : value) (i : nat) (v : value) : M unit :=
  fun h => match lv with
           | VRef a => match h !! a with
                       | Some (OList l) =>
                           if Nat.ltb i (length l)
                           then Ok tt (<[a := OList (<[i := v]> l)]> h)
                           else Raise IndexError
                       | _ => Raise TypeError
                       end
           | _ => Raise TypeError
           end.

(** [l += xs] on the list object [lv] (in place). *)
Definition list_extend (lv : value) (xs : list value) : M unit :=
  fun h => match lv with
           | VRef a => match h !! a with
                       | Some (OList l) => Ok tt (<[a := OList (l ++ xs)]> h)
                       | _ => Raise TypeError
                       end
           | _ => Raise TypeError
           end.

(** [d.copy()]: a new dict object with the same entries. *)
Definition dict_copy (dv : value) : M value :=
  d <- as_dict dv ;; new_dict d.

(** [k in d], [d[k]] and [d.get(k, default)] on a dict object. *)
Definition contains (dv : value) (k : string) : M bool :=
  d <- as_dict dv ;; ret (dict_mem d k).

Definition subscript (dv : value) (k : string) : M value :=
  d <- as_dict dv ;;
  match dict_get d k with
  | Some v => ret v
  | None => raise (KeyError k)
  end.

Definition get_opt (dv : value) (k : string) : M (option value) :=
  d <- as_dict dv ;; ret (dict_get d k).

(** [l[i]] on a list object. *)
Definition list_item (lv : value) (i : nat) : M value :=
  l <- as_list lv ;;
  match l !! i with
  | Some v => ret v
  | None => raise IndexError
  end.

(** ** Module constants ([NORM_FALSE], [NORM_TRUE])

    The two module-level dicts are objects of the store, shared by every
    place that returns them.  [globals] is the store right after the module
    is loaded. *)

Definition globals : heap :=
  [ ODict [("anyOf", VRef 1)]; OList [VRef 2];
    ODict [("type", VRef 3)]; OList [];
    ODict [("anyOf", VRef 5)]; OList [VRef 6]; ODict [] ].

Definition NORM_FALSE : value := VRef 0.
Definition NORM_TRUE : value := VRef 4.

(** ** Keyword merge algebra ([_simple_mergers]) *)

Definition as_num (v : value) : M Z :=
  match v with VNum n => ret n | _ => raise TypeError end.

Definition as_str (v : value) : M string :=
  match v with VStr s => ret s | _ => raise TypeError end.

(** A list object all of whose elements are strings. *)
Definition as_str_list (v : value) : M (list string) :=
  l <- as_list v ;; map_m as_str l.

Definition str_mem (s : string) (l : list string) : bool :=
  existsb (String.eqb s) l.

Fixpoint dedup (l : list string) (seen : list string) : list string :=
  match l with
  | [] => []
  | x :: l' => if str_mem x seen then dedup l' seen
               else x :: dedup l' (x :: seen)
  end.

(** [bool(v)] *)
Definition truthy (v : value) : M bool :=
  fun h => match v with
           | VNone => Ok false h
           | VBool b => Ok b h
           | VNum n => Ok (negb (Z.eqb n 0)) h
           | VStr s => Ok (negb (String.eqb s "")) h
           | VRef a => match h !! a with
                       | Some (ODict d) => Ok (negb (Nat.eqb (length d) 0)) h
                       | Some (OList l) => Ok (negb (Nat.eqb (length l) 0)) h
                       | None => Raise TypeError
                       end
           end.

Definition merge_max (a b : value) : M value :=
  x <- as_num a ;; y <- as_num b ;; ret (VNum (Z.max x y)).

Definition merge_min (a b : value) : M value :=
  x <- as_num a ;; y <- as_num b ;; ret (VNum (Z.min x y)).

Definition merge_left (a b : value) : M value := ret a.

(** [_merge_type] *)
Definition str_or_list (v : value) : M (list string) :=
  match v with
  | VStr s => ret [s]
  | _ => as_str_list v
  end.

Definition _merge_type (a b : value) : M value :=
  la <- str_or_list a ;;
  lb <- str_or_list b ;;
  new_list (map VStr (filter (fun s => str_mem s lb) (dedup la []))).

Definition merge_required (a b : value) : M value :=
  la <- as_str_list a ;;
  lb <- as_str_list b ;;
  new_list (map VStr (dedup (la ++ lb) [])).

Definition merge_multipleOf (a b : value) : M value :=
  x <- as_num a ;; y <- as_num b ;;
  if Z.eqb (Z.gcd x y) 0 then raise ZeroDivisionError
  else ret (VNum (Z.abs (x * y) / Z.gcd x y)).

Definition merge_items (a b : value) : M value :=
  l <- new_list [a; b] ;; new_dict [("allOf", l)].

Definition merge_pattern (a b : value) : M value :=
  x <- as_str a ;; y <- as_str b ;;
  ret (VStr ("(" +:+ x +:+ ")&(" +:+ y +:+ ")")).

Definition merge_enum (a b : value) : M value :=
  la <- as_list a ;; lb <- as_list b ;; new_list (la ++ lb).

Definition merge_deprecated (a b : value) : M value :=
  t <- truthy a ;; ret (if t then a else b).

Definition _simple_mergers : list (string * (value -> value -> M value)) :=
  [ ("required", merge_required);
    ("multipleOf", merge_multipleOf);
    ("items", merge_items);
    ("minimum", merge_max);
    ("maximum", merge_min);
    ("type", _merge_type);
    ("minItems", merge_max);
    ("pattern", merge_pattern);
    ("minLength", merge_max);
    ("maxLength", merge_min);
    ("const", merge_left);
    ("enum", merge_enum);
    ("format", merge_left);
    ("dependentRequired", merge_left);
    ("deprecated", merge_deprecated) ].

Fixpoint assoc {A} (l : list (string * A)) (k : string) : option A :=
  match l with
  | [] => None
  | (k', x) :: l' => if String.eqb k' k then Some x else assoc l' k
  end.

(** ** [_merge_properties] *)

Definition all_of (a b : value) : M value :=
  l <- new_list [a; b] ;; new_dict [("allOf", l)].

Definition get_or_new_dict (dv : value) (k : string) : M value :=
  o <- get_opt dv k ;;
  match o with Some v => ret v | None => new_dict [] end.

Definition get_or_new_list (dv : value) (k : string) : M value :=
  o <- get_opt dv k ;;
  match o with Some v => ret v | None => new_list [] end.

Definition get_or (dv : value) (k : string) (default : value) : M value :=
  o <- get_opt dv k ;;
  ret (match o with Some v => v | None => default end).

Definition is_none (v : value) : bool :=
  match v with VNone => true | _ => false end.

Definition _merge_properties (result to_add : value) : M value :=
  props_result <- get_or_new_dict result "properties" ;;
  props_to_add <- get_or_new_dict to_add "properties" ;;
  additional_result <- get_or result "additionalProperties" VNone ;;
  additional_to_add <- get_or to_add "additionalProperties" VNone ;;
  items_result <- as_dict props_result ;;
  for_each items_result (fun '(property_name, schema) =>
    b <- contains props_to_add property_name ;;
    if b then
      other <- subscript props_to_add property_name ;;
      w <- all_of schema other ;;
      dict_store props_result property_name w
    else if is_none additional_to_add then
      dict_store props_result property_name schema
    else
      w <- all_of schema additional_to_add ;;
      dict_store props_result property_name w) ;;;
  items_to_add <- as_dict props_to_add ;;
  for_each items_to_add (fun '(property_name, schema) =>
    b <- contains props_result property_name ;;
    if b then ret tt
    else if is_none additional_result then
      dict_store props_result property_name schema
    else
      w <- all_of schema additional_result ;;
      dict_store props_result property_name w) ;;;
  ret props_result.

(** ** [_merge_prefix_items] *)

Definition zip_values (la lb : list value) : list (value * value) :=
  combine la lb.

Definition _merge_prefix_items (result to_add : value) : M value :=
  items_a <- get_or result "items" NORM_TRUE ;;
  prefix_items_a <- get_or_new_list result "prefixItems" ;;
  items_b <- get_or to_add "items" NORM_TRUE ;;
  prefix_items_b <- get_or_new_list to_add "prefixItems" ;;
  ia <- is_list prefix_items_a ;;
  if negb ia then raise AssertionError else
  ib <- is_list prefix_items_b ;;
  if negb ib then raise AssertionError else
  result_prefix_items <- new_list [] ;;
  la <- as_list prefix_items_a ;;
  lb <- as_list prefix_items_b ;;
  (if Nat.ltb (length lb) (length la)
   then list_extend prefix_items_b (repeat items_b (length la - length lb))
   else list_extend prefix_items_a (repeat items_a (length lb - length la))) ;;;
  la' <- as_list prefix_items_a ;;
  lb' <- as_list prefix_items_b ;;
  if negb (Nat.eqb (length la') (length lb')) then raise AssertionError else
  for_each (zip_values la' lb') (fun '(i, j) =>
    w <- all_of i j ;;
    list_extend result_prefix_items [w]) ;;;
  ret result_prefix_items.

Definition _complex_mergers : list (string * (value -> value -> M value)) :=
  [ ("prefixItems", _merge_prefix_items);
    ("properties", _merge_properties) ].

Definition is_complex (k : string) : bool :=
  match assoc _complex_mergers k with Some _ => true | None => false end.

(** ** [_merge] *)

Definition _merge (result to_add : value) : M unit :=
  for_each _complex_mergers (fun '(key, merger) =>
    b1 <- contains result key ;;
    b2 <- (if b1 then ret true else contains to_add key) ;;
    if b2 then
      v <- merger result to_add ;; dict_store result key v
    else ret tt) ;;;
  items_result <- as_dict result ;;
  for_each items_result (fun '(key, value) =>
    b <- contains to_add key ;;
    if negb b then ret tt
    else match assoc _simple_mergers key with
         | Some merger =>
             other <- subscript to_add key ;;
             v <- merger value other ;;
             dict_store result key v
         | None =>
             if is_complex key then ret tt
             else raise (NormalizationException (DoNotKnowHowToMerge key))
         end) ;;;
  items_to_add <- as_dict to_add ;;
  for_each items_to_add (fun '(key, value) =>
    b <- contains result key ;;
    if negb b && negb (is_complex key) then dict_store result key value
    else ret tt).

(** ** [merge] and [merge_simple] *)

Definition any_of_len (schema : value) : M nat :=
  ao <- subscript schema "anyOf" ;; l <- as_list ao ;; ret (length l).

Definition merge_simple (schemas : list value) : M value :=
  if Nat.eqb (length schemas) 0 then raise AssertionError else
  results <- new_list [] ;;
  lens <- map_m any_of_len schemas ;;
  let num := fold_right Nat.max 0 lens in
  for_each (seq 0 num) (fun idx =>
    result <- new_dict [] ;;
    for_each schemas (fun schema =>
      ao <- subscript schema "anyOf" ;;
      l <- as_list ao ;;
      if Nat.eqb (length l) 0 then ret tt
      else
        option <- list_item ao (idx mod length l) ;;
        _merge result option) ;;;
    list_extend results [result]) ;;;
  new_dict [("anyOf", results)].

Definition merge (schemas : list value) : M value := merge_simple schemas.

(** ** [_simplify_if_then_else] *)

(** [d.pop(k, default)] on a dict object. *)
Definition dict_pop (dv : value) (k : string) (default : value) : M value :=
  fun h => match dv with
           | VRef a => match h !! a with
                       | Some (ODict d) =>
                           match dict_get d k with
                           | Some v => Ok v (<[a := ODict (dict_del d k)]> h)
                           | None => Ok default h
                           end
                       | _ => Raise AttributeError
                       end
           | _ => Raise AttributeError
           end.

(** [del d[k]] on a dict object. *)
Definition dict_remove (dv : value) (k : string) : M unit :=
  fun h => match dv with
           | VRef a => match h !! a with
                       | Some (ODict d) =>
                           if dict_mem d k
                           then Ok tt (<[a := ODict (dict_del d k)]> h)
                           else Raise (KeyError k)
                       | _ => Raise TypeError
                       end
           | _ => Raise TypeError
           end.

Definition _simplify_if_then_else (schema : value) : M value :=
  b_if <- contains schema "if" ;;
  b_then <- contains schema "then" ;;
  b_else <- contains schema "else" ;;
  if negb b_if && negb b_then && negb b_else then ret schema else
  sub_schema <- dict_copy schema ;;
  if_schema <- dict_pop sub_schema "if" VNone ;;
  then_schema <- dict_pop sub_schema "then" (VBool true) ;;
  else_schema <- dict_pop sub_schema "else" (VBool true) ;;
  any_of <- new_list [] ;;
  (if negb (is_none if_schema) && negb (is_none else_schema) then
     n <- new_dict [("not", if_schema)] ;;
     l <- new_list [sub_schema; n; else_schema] ;;
     d <- new_dict [("allOf", l)] ;;
     list_extend any_of [d]
   else ret tt) ;;;
  (if negb (is_none if_schema) && negb (is_none then_schema) then
     l <- new_list [sub_schema; if_schema; then_schema] ;;
     d <- new_dict [("allOf", l)] ;;
     list_extend any_of [d]
   else ret tt) ;;;
  branches <- as_list any_of ;;
  if Nat.eqb (length branches) 0 then
    e <- new_dict [] ;;
    l <- new_list [e] ;;
    new_dict [("anyOf", l)]
  else new_dict [("anyOf", any_of)].

(** ** [JsonPointer] *)

(** Modelled from the spec: [JsonPointer.from_string] and [lookup] of
    [fences/json_schema/json_pointer.py], which is not part of the sources
    at hand.  A pointer is a fragment ["#/a/b/c"]; its segments are
    unescaped ([~1] is [/], [~0] is [~]) and followed from the root, a
    missing segment being a fault. *)
Fixpoint split_slash (s : string) (cur : string) : list string :=
  match s with
  | EmptyString => [String.rev cur]
  | String c s' =>
      if Ascii.eqb c "/"%char then String.rev cur :: split_slash s' EmptyString
      else split_slash s' (String c cur)
  end.

Fixpoint unescape (s : string) : string :=
  match s with
  | String c1 (String c2 s' as t) =>
      if Ascii.eqb c1 "~"%char then
        if Ascii.eqb c2 "1"%char then String "/"%char (unescape s')
        else if Ascii.eqb c2 "0"%char then String "~"%char (unescape s')
        else String c1 (unescape t)
      else String c1 (unescape t)
  | _ => s
  end.

Definition from_string (s : string) : M (list string) :=
  match s with
  | String c rest =>
      if Ascii.eqb c "#"%char then
        match rest with
        | EmptyString => ret []
        | String c' rest' =>
            if Ascii.eqb c' "/"%char
            then ret (map unescape (split_slash rest' EmptyString))
            else raise (NormalizationException UnresolvedRef)
        end
      else raise (NormalizationException UnresolvedRef)
  | EmptyString => raise (NormalizationException UnresolvedRef)
  end.

Definition digit_of (c : Ascii.ascii) : option nat :=
  let n := Ascii.nat_of_ascii c in
  if Nat.leb 48 n && Nat.leb n 57 then Some (n - 48) else None.

Fixpoint index_of (s : string) (acc : nat) : option nat :=
  match s with
  | EmptyString => Some acc
  | String c s' =>
      match digit_of c with
      | Some d => index_of s' (10 * acc + d)
      | None => None
      end
  end.

Definition lookup_step (v : value) (seg : string) : M value :=
  fun h => match v with
           | VRef a =>
               match h !! a with
               | Some (ODict d) =>
                   match dict_get d seg with
                   | Some w => Ok w h
                   | None => Raise (NormalizationException UnresolvedRef)
                   end
               | Some (OList l) =>
                   match seg with
                   | EmptyString => Raise (NormalizationException UnresolvedRef)
                   | _ =>
                       match index_of seg 0 with
                       | Some i =>
                           match l !! i with
                           | Some w => Ok w h
                           | None =>
                               Raise (NormalizationException UnresolvedRef)
                           end
                       | None => Raise (NormalizationException UnresolvedRef)
                       end
                   end
               | None => Raise (NormalizationException UnresolvedRef)
               end
           | _ => Raise (NormalizationException UnresolvedRef)
           end.

Fixpoint lookup_pointer (segs : list string) (v : value) : M value :=
  match segs with
  | [] => ret v
  | seg :: segs' => w <- lookup_step v seg ;; lookup_pointer segs' w
  end.

(** [Resolver.resolve] of the [$ref] string [r] against the root schema. *)
Definition resolve (root : value) (r : value) : M value :=
  s <- as_str r ;;
  segs <- from_string s ;;
  lookup_pointer segs root.

(** ** [json.dumps] (default arguments: insertion order, [ensure_ascii]) *)

Definition dquote : ascii := ascii_of_nat 34.
Definition backslash : ascii := ascii_of_nat 92.

Definition hex_digit (n : N) : ascii :=
  ascii_of_N (if N.ltb n 10 then 48 + n else 87 + n).

Definition str1 (c : ascii) : string := String c EmptyString.

Definition escape_char (c : ascii) : string :=
  let n := N_of_ascii c in
  if N.eqb n 34 then String backslash (str1 dquote)
  else if N.eqb n 92 then String backslash (str1 backslash)
  else if N.eqb n 10 then String backslash "n"
  else if N.eqb n 13 then String backslash "r"
  else if N.eqb n 9 then String backslash "t"
  else if N.eqb n 8 then String backslash "b"
  else if N.eqb n 12 then String backslash "f"
  else if N.leb 32 n && N.leb n 126 then str1 c
  else String backslash
         ("u00" +:+ String (hex_digit (N.shiftr n 4))
                      (str1 (hex_digit (N.land n 15)))).

Fixpoint escape (s : string) : string :=
  match s with
  | EmptyString => EmptyString
  | String c s' => escape_char c +:+ escape s'
  end.

Definition quote (s : string) : string :=
  String dquote (escape s +:+ str1 dquote).

Fixpoint dec_digits (fuel : nat) (n : N) (acc : string) : string :=
  match fuel with
  | 0 => acc
  | S f =>
      let acc' := String (hex_digit (N.modulo n 10)) acc in
      if N.ltb n 10 then acc' else dec_digits f (N.div n 10) acc'
  end.

Definition repr_int (z : Z) : string :=
  let n := Z.abs_N z in
  let s := dec_digits (S (N.to_nat (N.log2 n))) n EmptyString in
  if Z.ltb z 0 then String "-" s else s.

Fixpoint join (sep : string) (l : list string) : string :=
  match l with
  | [] => EmptyString
  | [x] => x
  | x :: l' => x +:+ sep +:+ join sep l'
  end.

Fixpoint sequence {A} (l : list (option A)) : option (list A) :=
  match l with
  | [] => Some []
  | Some x :: l' =>
      match sequence l' with Some xs => Some (x :: xs) | None => None end
  | None :: _ => None
  end.

Fixpoint dumps (fuel : nat) (h : heap) (v : value) : option string :=
  match fuel with
  | 0 => None
  | S f =>
      match v with
      | VNone => Some "null"
      | VBool true => Some "true"
      | VBool false => Some "false"
      | VNum n => Some (repr_int n)
      | VStr s => Some (quote s)
      | VRef a =>
          match h !! a with
          | Some (OList l) =>
              match sequence (map (dumps f h) l) with
              | Some parts => Some ("[" +:+ join ", " parts +:+ "]")
              | None => None
              end
          | Some (ODict d) =>
              match sequence (map (fun kv =>
                       match dumps f h (snd kv) with
                       | Some s => Some (quote (fst kv) +:+ ": " +:+ s)
                       | None => None
                       end) d) with
              | Some parts => Some ("{" +:+ join ", " parts +:+ "}")
              | None => None
              end
          | None => None
          end
      end
  end.

(** A chain of references longer than the store revisits an object:
    [json.dumps] raises [ValueError] (circular reference) on it. *)
Definition json_dumps (v : value) : M string :=
  fun h => match dumps (S (length h)) h v with
           | Some s => Ok s h
           | None => Raise ValueError
           end.

(** ** [hashlib.sha1(...).hexdigest()] *)

Module SHA1.

Definition mask32 : N := 4294967295.
Definition add32 (a b : N) : N := N.land (a + b) mask32.
Definition rotl32 (k x : N) : N :=
  N.land (N.lor (N.shiftl x k) (N.shiftr x (32 - k))) mask32.
Definition not32 (x : N) : N := N.lxor x mask32.

Fixpoint be_bytes (n : nat) (x : N) : list N :=
  match n with
  | 0 => []
  | S n' => N.land (N.shiftr x (8 * N.of_nat n')) 255 :: be_bytes n' x
  end.

Definition pad (msg : list N) : list N :=
  let len := length msg in
  let k := (64 - (len + 9) mod 64) mod 64 in
  msg ++ [128%N] ++ repeat 0%N k ++ be_bytes 8 (8 * N.of_nat len).

Fixpoint words (fuel : nat) (bs : list N) : list N :=
  match fuel, bs with
  | S f, b0 :: b1 :: b2 :: b3 :: bs' =>
      (N.shiftl b0 24 + N.shiftl b1 16 + N.shiftl b2 8 + b3)%N :: words f bs'
  | _, _ => []
  end.

Fixpoint chunks (fuel : nat) (ws : list N) : list (list N) :=
  match fuel with
  | 0 => []
  | S f => match ws with
           | [] => []
           | _ => take 16 ws :: chunks f (drop 16 ws)
           end
  end.

(** The message schedule, newest word first. *)
Fixpoint schedule (n : nat) (rev_ws : list N) : list N :=
  match n with
  | 0 => rev_ws
  | S n' =>
      let w := rotl32 1 (N.lxor (N.lxor (nth 2 rev_ws 0%N) (nth 7 rev_ws 0%N))
                                (N.lxor (nth 13 rev_ws 0%N) (nth 15 rev_ws 0%N)))
      in schedule n' (w :: rev_ws)
  end.

Definition state : Type := N * N * N * N * N.

Definition round (i : nat) (st : state) (w : N) : state :=
  let '(a, b, c, d, e) := st in
  let '(f, k) :=
    if Nat.ltb i 20 then
      (N.lor (N.land b c) (N.land (not32 b) d), 1518500249%N)
    else if Nat.ltb i 40 then
      (N.lxor (N.lxor b c) d, 1859775393%N)
    else if Nat.ltb i 60 then
      (N.lor (N.lor (N.land b c) (N.land b d)) (N.land c d), 2400959708%N)
    else (N.lxor (N.lxor b c) d, 3395469782%N) in
  let t := add32 (add32 (add32 (add32 (rotl32 5 a) f) e) k) w in
  (t, a, rotl32 30 b, c, d).

Fixpoint rounds (i : nat) (ws : list N) (st : state) : state :=
  match ws with
  | [] => st
  | w :: ws' => rounds (S i) ws' (round i st w)
  end.

Definition compress (st : state) (chunk : list N) : state :=
  let ws := rev (schedule 64 (rev chunk)) in
  let '(a, b, c, d, e) := rounds 0 ws st in
  let '(h0, h1, h2, h3, h4) := st in
  (add32 h0 a, add32 h1 b, add32 h2 c, add32 h3 d, add32 h4 e).

Definition init : state :=
  (1732584193%N, 4023233417%N, 2562383102%N, 271733878%N, 3285377520%N).

Definition digest (msg : list N) : state :=
  let bs := pad msg in
  fold_left compress (chunks (length bs) (words (length bs) bs)) init.

Fixpoint hex_of (n : nat) (x : N) : string :=
  match n with
  | 0 => EmptyString
  | S n' =>
      String (hex_digit (N.land (N.shiftr x (4 * N.of_nat n')) 15)) (hex_of n' x)
  end.

Fixpoint bytes_of (s : string) : list N :=
  match s with
  | EmptyString => []
  | String c s' => N_of_ascii c :: bytes_of s'
  end.

Definition hexdigest (s : string) : string :=
  let '(h0, h1, h2, h3, h4) := digest (bytes_of s) in
  hex_of 8 h0 +:+ hex_of 8 h1 +:+ hex_of 8 h2 +:+ hex_of 8 h3 +:+ hex_of 8 h4.

End SHA1.

(** [hashlib.sha1(json.dumps(schema).encode()).hexdigest()] *)
Definition fingerprint (schema : value) : M string :=
  s <- json_dumps schema ;; ret (SHA1.hexdigest s).

(** ** [_inline_refs] *)

Fixpoint fold_m {A S} (xs : list A) (body : S -> A -> M S) (s : S) : M S :=
  match xs with
  | [] => ret s
  | x :: xs' => s' <- body s x ;; fold_m xs' body s'
  end.

(** The elements of a list are read when the loop reaches them; the lists
    looped over keep their length while the loop runs. *)
Fixpoint _inline_refs (fuel : nat) (root : value) (schema : value)
  : M (value * bool) :=
  match fuel with
  | 0 => out_of_fuel
  | S fuel' =>
      match schema with
      | VBool false => ret (NORM_FALSE, false)
      | VBool true => ret (NORM_TRUE, true)
      | _ =>
          has_ref <- contains schema "$ref" ;;
          sc <- (if has_ref then
                   side_schema <- dict_copy schema ;;
                   dict_remove side_schema "$ref" ;;;
                   r <- subscript schema "$ref" ;;
                   ref_schema <- resolve root r ;;
                   l <- new_list [side_schema; ref_schema] ;;
                   s <- new_dict [("allOf", l)] ;;
                   ret (s, true)
                 else ret (schema, false)) ;;
          let schema := fst sc in
          contains_refs <-
            fold_m ["anyOf"; "allOf"; "oneOf"] (fun contains_refs kw =>
              o <- get_opt schema kw ;;
              match o with
              | None => ret contains_refs
              | Some subs =>
                  l <- as_list subs ;;
                  fold_m (seq 0 (length l)) (fun contains_refs idx =>
                    sub_schema <- list_item subs idx ;;
                    r <- _inline_refs fuel' root sub_schema ;;
                    target <- subscript schema kw ;;
                    list_store target idx (fst r) ;;;
                    ret (contains_refs || snd r)) contains_refs
              end) (snd sc) ;;
          has_not <- contains schema "not" ;;
          if has_not then
            n <- subscript schema "not" ;;
            r <- _inline_refs fuel' root n ;;
            dict_store schema "not" (fst r) ;;;
            ret (schema, contains_refs || snd r)
          else ret (schema, contains_refs)
      end
  end.

(** ** [_to_dnf] *)

Definition invert (schema : value) : value := schema.

(** [v == idx] for an integer [idx]. *)
Definition eq_int (v : value) (idx : nat) : bool :=
  match v with
  | VNum n => Z.eqb n (Z.of_nat idx)
  | VBool b => Z.eqb (if b then 1 else 0) (Z.of_nat idx)
  | _ => false
  end.

Fixpoint _to_dnf (fuel : nat) (schema : value) : M value :=
  match fuel with
  | 0 => out_of_fuel
  | S fuel' =>
      match schema with
      | VBool false => ret NORM_FALSE
      | VBool true => ret NORM_TRUE
      | _ =>
          schema <- _simplify_if_then_else schema ;;
          (* anyOf *)
          has_any <- contains schema "anyOf" ;;
          any_ofs <-
            (if has_any then
               any_ofs <- new_list [] ;;
               subs <- subscript schema "anyOf" ;;
               l <- as_list subs ;;
               for_each (seq 0 (length l)) (fun idx =>
                 sub_schema <- list_item subs idx ;;
                 normalized_sub_schema <- _to_dnf fuel' sub_schema ;;
                 ao <- subscript normalized_sub_schema "anyOf" ;;
                 branches <- as_list ao ;;
                 list_extend any_ofs branches) ;;;
               ret any_ofs
             else e <- new_dict [] ;; new_list [e]) ;;
          (* oneOf *)
          has_one <- contains schema "oneOf" ;;
          one_ofs <-
            (if has_one then
               one_ofs <- new_list [] ;;
               subs <- subscript schema "oneOf" ;;
               l <- as_list subs ;;
               normalized_sub_schemas <-
                 map_m (fun idx =>
                          sub_schema <- list_item subs idx ;;
                          _to_dnf fuel' sub_schema) (seq 0 (length l)) ;;
               for_each (seq 0 (length normalized_sub_schemas)) (fun idx =>
                 options <- merge (map (fun i => if eq_int i idx
                                                 then invert i else i)
                                       normalized_sub_schemas) ;;
                 ao <- subscript options "anyOf" ;;
                 branches <- as_list ao ;;
                 list_extend one_ofs branches) ;;;
               ret one_ofs
             else e <- new_dict [] ;; new_list [e]) ;;
          (* allOf *)
          side_schema <- dict_copy schema ;;
          for_each ["allOf"; "anyOf"; "oneOf"; "not"] (fun sub_schema =>
            b <- contains side_schema sub_schema ;;
            if b then dict_remove side_schema sub_schema else ret tt) ;;;
          side_list <- new_list [side_schema] ;;
          side <- new_dict [("anyOf", side_list)] ;;
          o <- get_opt schema "allOf" ;;
          rest <-
            match o with
            | None => ret []
            | Some subs =>
                l <- as_list subs ;;
                map_m (fun idx =>
                         sub_schema <- list_item subs idx ;;
                         _to_dnf fuel' sub_schema) (seq 0 (length l))
            end ;;
          s <- merge (side :: rest) ;;
          a <- new_dict [("anyOf", any_ofs)] ;;
          o1 <- new_dict [("anyOf", one_ofs)] ;;
          merge [a; o1; s]
      end
  end.

(** ** [_normalize] *)

Definition ref_to (new_ref_name : string) : M value :=
  r <- new_dict [("$ref", VStr ("#/$defs/" +:+ new_ref_name))] ;;
  l <- new_list [r] ;;
  new_dict [("anyOf", l)].

Fixpoint _normalize (fuel : nat) (root new_refs : value) (schema : value)
  : M value :=
  match fuel with
  | 0 => out_of_fuel
  | S fuel' =>
      match schema with
      | VBool false => ret NORM_FALSE
      | VBool true => ret NORM_TRUE
      | _ =>
          (* Check cache (to avoid stack overflows due to recursive schemas) *)
          new_ref_name <- fingerprint schema ;;
          cached <- contains new_refs new_ref_name ;;
          if cached then ref_to new_ref_name else
          (* Inline all references (if any) *)
          r <- _inline_refs fuel' root schema ;;
          let schema := fst r in
          let contains_refs := snd r in
          result <- _to_dnf fuel' schema ;;
          (* Store new schema if sub-schemas later try to reference it *)
          (if contains_refs then dict_store new_refs new_ref_name result
           else ret tt) ;;;
          (* Iterate sub-schemas *)
          ao <- subscript result "anyOf" ;;
          branches <- as_list ao ;;
          for_each (seq 0 (length branches)) (fun i =>
            sub_schema <- list_item ao i ;;
            for_each ["additionalProperties"; "items"; "additionalItems"]
              (fun kw =>
                 b <- contains sub_schema kw ;;
                 if b then
                   v <- subscript sub_schema kw ;;
                   n <- _normalize fuel' root new_refs v ;;
                   dict_store sub_schema kw n
                 else ret tt) ;;;
            props <- get_or_new_dict sub_schema "properties" ;;
            entries <- as_dict props ;;
            for_each (map fst entries) (fun name =>
              sub_sub_schema <- subscript props name ;;
              n <- _normalize fuel' root new_refs sub_sub_schema ;;
              dict_store props name n) ;;;
            prefix_items <- get_or_new_list sub_schema "prefixItems" ;;
            items <- as_list prefix_items ;;
            (* [_normalize(sub_sub_schema, resolver)]: the call misses the
               [new_refs] argument and raises as soon as it is reached *)
            for_each items (fun _ => raise TypeError)) ;;;
          (* Return *)
          if contains_refs then ref_to new_ref_name else ret result
      end
  end.

(** ** [normalize] *)

Definition normalize (fuel : nat) (schema : value) : M value :=
  match schema with
  | VBool false => l <- new_list [] ;; new_dict [("type", l)]
  | VBool true => new_dict []
  | _ =>
      d <- is_dict schema ;;
      if negb d then raise (NormalizationException SchemaNotBoolOrDict) else
      new_schema <- dict_copy schema ;;
      for_each ["$schema"; "$defs"] (fun kw =>
        b <- contains schema kw ;;
        if b then dict_remove new_schema kw else ret tt) ;;;
      new_refs <- new_dict [] ;;
      new_schema <- _normalize fuel schema new_refs new_schema ;;
      b <- contains schema "$schema" ;;
      (if b then
         v <- subscript schema "$schema" ;;
         dict_store new_schema "$schema" v
       else ret tt) ;;;
      dict_store new_schema "$defs" new_refs ;;;
      ret new_schema
  end.

(** ** [check_normalized] *)

Definition remove_str (k : string) (l : list string) : list string :=
  filter (fun x => negb (String.eqb x k)) l.

Fixpoint _check_normalized (fuel : nat) (root : value) (schema : value)
  (checked_refs : list string) : M (list string) :=
  match fuel with
  | 0 => out_of_fuel
  | S fuel' =>
      d <- is_dict schema ;;
      if negb d then raise (NormalizationException MustBeADict) else
      entries <- as_dict schema ;;
      let keys := remove_str "$defs" (remove_str "$schema" (dict_keys entries)) in
      if negb (Nat.eqb (length keys) 1) || negb (str_mem "anyOf" keys)
      then raise (NormalizationException OneKeyNotAnyOf) else
      any_of <- subscript schema "anyOf" ;;
      il <- is_list any_of ;;
      if negb il then raise (NormalizationException AnyOfMustBeList) else
      l <- as_list any_of ;;
      fold_m (seq 0 (length l)) (fun checked_refs idx =>
        sub_schema <- list_item any_of idx ;;
        (* Disallowed keywords in any-of elements *)
        for_each ["anyOf"; "allOf"; "oneOf"; "not"; "if"; "then"; "else"]
          (fun i =>
             b <- contains sub_schema i ;;
             if b then raise (NormalizationException
                                (NotAllowedInSubSchema i idx))
             else ret tt) ;;;
        has_ref <- contains sub_schema "$ref" ;;
        checked_refs <-
          (if has_ref then
             ks <- as_dict sub_schema ;;
             if negb (Nat.eqb (length ks) 1)
             then raise (NormalizationException (OtherKeysBesideRef idx)) else
             ref <- subscript sub_schema "$ref" ;;
             name <- as_str ref ;;
             if str_mem name checked_refs then ret checked_refs else
             target <- resolve root ref ;;
             _check_normalized fuel' root target (name :: checked_refs)
           else ret checked_refs) ;;
        (* Traverse sub-schemas *)
        checked_refs <-
          fold_m ["additionalProperties"; "items"; "additionalItems"]
            (fun checked_refs kw =>
               b <- contains schema kw ;;
               if b then
                 v <- subscript schema kw ;;
                 _check_normalized fuel' root v checked_refs
               else ret checked_refs) checked_refs ;;
        props <- get_opt sub_schema "properties" ;;
        checked_refs <-
          match props with
          | None => ret checked_refs
          | Some p =>
              ps <- as_dict p ;;
              fold_m (map snd ps) (fun checked_refs i =>
                _check_normalized fuel' root i checked_refs) checked_refs
          end ;;
        prefix <- get_opt sub_schema "prefixItems" ;;
        match prefix with
        | None => ret checked_refs
        | Some p =>
            ps <- as_list p ;;
            fold_m ps (fun checked_refs i =>
              _check_normalized fuel' root i checked_refs) checked_refs
        end) checked_refs
  end.

Definition check_normalized (fuel : nat) (schema : value) : M unit :=
  _check_normalized fuel schema schema [] ;;; ret tt.

(** ** Loading a JSON tree into the store and reading a value back *)

Fixpoint load (j : json) : M value :=
  match j with
  | JNull => ret VNone
  | JBool b => ret (VBool b)
  | JNum n => ret (VNum n)
  | JStr s => ret (VStr s)
  | JArr l =>
      vs <- (fix go (l : list json) : M (list value) :=
               match l with
               | [] => ret []
               | x :: l' => v <- load x ;; vs <- go l' ;; ret (v :: vs)
               end) l ;;
      new_list vs
  | JObj d =>
      kvs <- (fix go (d : list (string * json)) : M (list (string * value)) :=
                match d with
                | [] => ret []
                | (k, x) :: d' =>
                    v <- load x ;; kvs <- go d' ;; ret ((k, v) :: kvs)
                end) d ;;
      new_dict kvs
  end.

Fixpoint read (fuel : nat) (h : heap) (v : value) : option json :=
  match fuel with
  | 0 => None
  | S f =>
      match v with
      | VNone => Some JNull
      | VBool b => Some (JBool b)
      | VNum n => Some (JNum n)
      | VStr s => Some (JStr s)
      | VRef a =>
          match h !! a with
          | Some (OList l) =>
              match sequence (map (read f h) l) with
              | Some js => Some (JArr js)
              | None => None
              end
          | Some (ODict d) =>
              match sequence (map (fun kv =>
                       match read f h (snd kv) with
                       | Some j => Some (fst kv, j)
                       | None => None
                       end) d) with
              | Some js => Some (JObj js)
              | None => None
              end
          | None => None
          end
      end
  end.

(** Running a function of the module on a JSON input, from the store of a
    freshly loaded module; the result is read back as a tree, together with
    the input as it is after the call. *)
Definition run_on {A} (j : json) (f : value -> M A) : outcome (A * value) :=
  match load j globals with
  | Ok v h =>
      match f v h with
      | Ok a h' => Ok (a, v) h'
      | Raise e => Raise e
      | OutOfFuel => OutOfFuel
      end
  | Raise e => Raise e
  | OutOfFuel => OutOfFuel
  end.

Definition view {A} (o : outcome A) (f : A -> value) : option json :=
  match o with
  | Ok a h => read (S (length h)) h (f a)
  | _ => None
  end.

Definition result_of {A} (o : outcome (A * value)) : option exn :=
  match o with Raise e => Some e | _ => None end.

Definition schema_any_true : json := JObj [("anyOf", JArr [JBool true])].

Definition schema_any_empty : json := JObj [("anyOf", JArr [])].

Definition schema_if_then_else : json :=
  JObj [("if", JObj [("type", JStr "string")]);
        ("then", JObj [("minLength", JNum 1)]);
        ("else", JObj [("minimum", JNum 0)])].

(** [{'$defs': {'X': {'$ref': '#/$defs/X'}}, '$ref': '#/$defs/X'}] *)
Definition schema_ref_loop : json :=
  JObj [("$defs", JObj [("X", JObj [("$ref", JStr "#/$defs/X")])]);
        ("$ref", JStr "#/$defs/X")].

(** The part of the store the reference ["#/$defs/X"] of [schema_ref_loop]
    is resolved through: the root at address 9, its [$defs] at 8 and [X] at
    7, which refers to itself. *)
Definition ref_loop_store (h : heap) : Prop :=
  h !! 7 = Some (ODict [("$ref", VStr "#/$defs/X")])
  /\ h !! 8 = Some (ODict [("X", VRef 7)])
  /\ h !! 9 = Some (ODict [("$defs", VRef 8); ("$ref", VStr "#/$defs/X")]).

(** Two inputs that are equal as JSON values and differ in key order. *)
Definition schema_order_1 : json :=
  JObj [("anyOf", JArr [JBool true]); ("type", JStr "object")].
Definition schema_order_2 : json :=
  JObj [("type", JStr "object"); ("anyOf", JArr [JBool true])].

(** The keys of the output's [$defs]. *)
Definition defs_keys (j : option json) : list string :=
  match j with
  | Some (JObj d) =>
      match assoc d "$defs" with
      | Some (JObj defs) => map fst defs
      | _ => []
      end
  | _ => []
  end.

(** [json.dumps] of a tree: the encoding that [dumps] produces for a value
    that reads back as the tree. *)
Fixpoint dumps_json (j : json) : string :=
  match j with
  | JNull => "null"
  | JBool true => "true"
  | JBool false => "false"
  | JNum n => repr_int n
  | JStr s => quote s
  | JArr l => "[" +:+ join ", " (map dumps_json l) +:+ "]"
  | JObj d =>
      "{" +:+ join ", " (map (fun kv => quote (fst kv) +:+ ": "
                                          +:+ dumps_json (snd kv)) d) +:+ "}"
  end.

(** [o1] is [o2], unless the fuel of [o1] ran out. *)
Definition le_out {A} (o1 o2 : outcome A) : Prop :=
  o1 = OutOfFuel \/ o1 = o2.

(** The keywords whose lists [_inline_refs] rewrites in place. *)
Definition Skeys : list string := ["anyOf"; "allOf"; "oneOf"].

(** Slot [i] of the list object [L] holds the boolean schema [true]. *)
Definition true_slot (h : heap) (L i : nat) : Prop :=
  exists l, h !! L = Some (OList l) /\ l !! i = Some (VBool true).

(** The dict object [a] has the boolean schema [true] under [not]. *)
Definition true_not (h : heap) (a : nat) : Prop :=
  exists d, h !! a = Some (ODict d) /\ dict_get d "not" = Some (VBool true).

(** What [_inline_refs] may do to the objects of the store it starts from:
    a dict keeps its entries but for the value under [not], a list keeps
    its length, and whatever is overwritten is overwritten by a
    reference. *)
Definition inline_frame (h h' : heap) : Prop :=
  length h <= length h'
  /\ (forall a d, h !! a = Some (ODict d) ->
        exists d', h' !! a = Some (ODict d')
          /\ (forall k, k <> "not" -> dict_get d' k = dict_get d k)
          /\ (dict_get d' "not" = dict_get d "not"
              \/ exists c, dict_get d' "not" = Some (VRef c)))
  /\ (forall a l, h !! a = Some (OList l) ->
        exists l', h' !! a = Some (OList l')
          /\ length l' = length l
          /\ forall i, l' !! i = l !! i \/ exists c, l' !! i = Some (VRef c)).

(** [schema] shows no boolean [true] to [_inline_refs]: it is not [true],
    and as a dict it has no [true] in its [anyOf], [allOf] and [oneOf]
    lists, nor under [not]. *)
Definition no_true (h : heap) (schema : value) : Prop :=
  schema <> VBool true
  /\ forall a d, schema = VRef a -> h !! a = Some (ODict d) ->
       (forall kw L i, In kw Skeys -> dict_get d kw = Some (VRef L) ->
                       ~ true_slot h L i)
       /\ dict_get d "not" <> Some (VBool true).

(** A run of [_inline_refs] that reports no inlined reference has not
    touched any [true]. *)
Definition true_kept (h h' : heap) : Prop :=
  (forall L i, true_slot h L i -> true_slot h' L i)
  /\ (forall a, true_not h a -> true_not h' a).


(** ** The store: appended objects and old objects *)

Lemma lookup_fresh (h l : heap) (i : nat) : (h ++ l) !! (length h + i) = l !! i.
Proof. rewrite lookup_app_r by lia. f_equal. lia. Qed.

Lemma lookup_old (h l : heap) (a : nat) (o : obj) :
  h !! a = Some o -> (h ++ l) !! a = Some o.
Proof. intros H. rewrite lookup_app_l; [done|]. by eapply lookup_lt_Some. Qed.

Lemma insert_fresh (h l : heap) (i : nat) (o : obj) :
  <[length h + i := o]> (h ++ l) = h ++ <[i := o]> l.
Proof. apply insert_app_r. Qed.

Lemma insert_old (h l : heap) (a : nat) (o o' : obj) :
  h !! a = Some o' -> <[a := o]> (h ++ l) = <[a := o]> h ++ l.
Proof. intros H. apply insert_app_l. by eapply lookup_lt_Some. Qed.

Lemma app_fresh (h l : heap) (o : obj) : (h ++ l) ++ [o] = h ++ (l ++ [o]).
Proof. by rewrite <- app_assoc. Qed.

Lemma length_fresh (h l : heap) : length (h ++ l) = length h + length l.
Proof. apply length_app. Qed.

(** ** Ordered dicts *)

Lemma dict_get_del_ne (d : list (string * value)) (k k' : string) :
  k <> k' -> dict_get (dict_del d k) k' = dict_get d k'.
Proof.
  intros Hne. induction d as [|[k0 v] d IH]; simpl; [done|].
  destruct (String.eqb k0 k) eqn:E1.
  - apply String.eqb_eq in E1. subst k0.
    destruct (String.eqb k k') eqn:E2; [|done].
    apply String.eqb_eq in E2. congruence.
  - simpl. by rewrite IH.
Qed.

Lemma dict_get_del_eq (d : list (string * value)) (k : string) :
  dict_get (dict_del d k) k = None.
Proof.
  induction d as [|[k0 v] d IH]; simpl; [done|].
  destruct (String.eqb k0 k) eqn:E1; [done|]. simpl. by rewrite E1.
Qed.

Lemma dict_mem_get (d : list (string * value)) (k : string) (v : value) :
  dict_get d k = Some v -> dict_mem d k = true.
Proof. unfold dict_mem. by intros ->. Qed.

Lemma is_none_false (v : value) : v <> VNone -> is_none v = false.
Proof. by destruct v. Qed.

(** ** Running the primitives *)

Lemma bind_Ok {A B} (m : M A) (k : A -> M B) (h h' : heap) (a : A) :
  m h = Ok a h' -> bind m k h = k a h'.
Proof. unfold bind. by intros ->. Qed.

Lemma bind_Raise {A B} (m : M A) (k : A -> M B) (h : heap) (e : exn) :
  m h = Raise e -> bind m k h = Raise e.
Proof. unfold bind. by intros ->. Qed.

Lemma bind_OutOfFuel {A B} (m : M A) (k : A -> M B) (h : heap) :
  m h = OutOfFuel -> bind m k h = OutOfFuel.
Proof. unfold bind. by intros ->. Qed.

Lemma as_dict_eq (h : heap) (a : nat) (d : list (string * value)) :
  h !! a = Some (ODict d) -> as_dict (VRef a) h = Ok d h.
Proof. unfold as_dict. by intros ->. Qed.

Lemma as_list_eq (h : heap) (a : nat) (l : list value) :
  h !! a = Some (OList l) -> as_list (VRef a) h = Ok l h.
Proof. unfold as_list. by intros ->. Qed.

Lemma is_dict_eq (h : heap) (a : nat) (d : list (string * value)) :
  h !! a = Some (ODict d) -> is_dict (VRef a) h = Ok true h.
Proof. unfold is_dict. by intros ->. Qed.

Lemma is_list_eq (h : heap) (a : nat) (l : list value) :
  h !! a = Some (OList l) -> is_list (VRef a) h = Ok true h.
Proof. unfold is_list. by intros ->. Qed.

Lemma contains_eq (h : heap) (a : nat) (d : list (string * value)) (k : string) :
  h !! a = Some (ODict d) -> contains (VRef a) k h = Ok (dict_mem d k) h.
Proof. intros H. unfold contains. by rewrite (bind_Ok _ _ _ _ _ (as_dict_eq _ _ _ H)). Qed.

Lemma get_opt_eq (h : heap) (a : nat) (d : list (string * value)) (k : string) :
  h !! a = Some (ODict d) -> get_opt (VRef a) k h = Ok (dict_get d k) h.
Proof. intros H. unfold get_opt. by rewrite (bind_Ok _ _ _ _ _ (as_dict_eq _ _ _ H)). Qed.

Lemma subscript_eq (h : heap) (a : nat) (d : list (string * value))
  (k : string) (v : value) :
  h !! a = Some (ODict d) -> dict_get d k = Some v ->
  subscript (VRef a) k h = Ok v h.
Proof.
  intros H Hk. unfold subscript.
  rewrite (bind_Ok _ _ _ _ _ (as_dict_eq _ _ _ H)). by rewrite Hk.
Qed.

Lemma get_or_eq (h : heap) (a : nat) (d : list (string * value))
  (k : string) (default : value) :
  h !! a = Some (ODict d) ->
  get_or (VRef a) k default h
  = Ok (match dict_get d k with Some v => v | None => default end) h.
Proof. intros H. unfold get_or. by rewrite (bind_Ok _ _ _ _ _ (get_opt_eq _ _ _ _ H)). Qed.

Lemma list_item_eq (h : heap) (a : nat) (l : list value) (i : nat) (v : value) :
  h !! a = Some (OList l) -> l !! i = Some v ->
  list_item (VRef a) i h = Ok v h.
Proof.
  intros H Hi. unfold list_item.
  rewrite (bind_Ok _ _ _ _ _ (as_list_eq _ _ _ H)). by rewrite Hi.
Qed.

Lemma dict_copy_eq (h : heap) (a : nat) (d : list (string * value)) :
  h !! a = Some (ODict d) ->
  dict_copy (VRef a) h = Ok (VRef (length h)) (h ++ [ODict d]).
Proof. intros H. unfold dict_copy. by rewrite (bind_Ok _ _ _ _ _ (as_dict_eq _ _ _ H)). Qed.

Lemma dict_store_eq (h : heap) (a : nat) (d : list (string * value))
  (k : string) (v : value) :
  h !! a = Some (ODict d) ->
  dict_store (VRef a) k v h = Ok tt (<[a := ODict (dict_set d k v)]> h).
Proof. unfold dict_store. by intros ->. Qed.

Lemma dict_pop_eq (h : heap) (a : nat) (d : list (string * value))
  (k : string) (default : value) :
  h !! a = Some (ODict d) ->
  dict_pop (VRef a) k default h
  = match dict_get d k with
    | Some v => Ok v (<[a := ODict (dict_del d k)]> h)
    | None => Ok default h
    end.
Proof. unfold dict_pop. by intros ->. Qed.

Lemma dict_remove_eq (h : heap) (a : nat) (d : list (string * value))
  (k : string) :
  h !! a = Some (ODict d) -> dict_mem d k = true ->
  dict_remove (VRef a) k h = Ok tt (<[a := ODict (dict_del d k)]> h).
Proof. unfold dict_remove. by intros -> ->. Qed.

Lemma list_extend_eq (h : heap) (a : nat) (l xs : list value) :
  h !! a = Some (OList l) ->
  list_extend (VRef a) xs h = Ok tt (<[a := OList (l ++ xs)]> h).
Proof. unfold list_extend. by intros ->. Qed.

Lemma list_store_eq (h : heap) (a : nat) (l : list value) (i : nat) (v : value) :
  h !! a = Some (OList l) -> i < length l ->
  list_store (VRef a) i v h = Ok tt (<[a := OList (<[i := v]> l)]> h).
Proof.
  unfold list_store. intros -> Hi.
  by rewrite (proj2 (Nat.ltb_lt _ _) Hi).
Qed.

Lemma new_dict_eq (h : heap) (d : list (string * value)) :
  new_dict d h = Ok (VRef (length h)) (h ++ [ODict d]).
Proof. reflexivity. Qed.

Lemma new_list_eq (h : heap) (l : list value) :
  new_list l h = Ok (VRef (length h)) (h ++ [OList l]).
Proof. reflexivity. Qed.

Lemma ret_eq {A} (a : A) (h : heap) : ret a h = Ok a h.
Proof. reflexivity. Qed.

Lemma bind_assoc {A B C} (m : M A) (k1 : A -> M B) (k2 : B -> M C) (h : heap) :
  bind (bind m k1) k2 h = bind m (fun x => bind (k1 x) k2) h.
Proof. unfold bind. by destruct (m h). Qed.

Lemma ret_bind {A B} (a : A) (k : A -> M B) (h : heap) :
  bind (ret a) k h = k a h.
Proof. reflexivity. Qed.

(** Normal form of a store under symbolic execution: [h ++ l] with the
    appended objects [l] written out. *)
Ltac heap_norm :=
  repeat (rewrite ?length_fresh, ?app_fresh, ?lookup_fresh, ?insert_fresh;
          cbn [length app lookup list_lookup insert list_insert]).

Ltac heap_lookup :=
  heap_norm;
  first [ reflexivity
        | eassumption
        | apply lookup_old; eassumption ].

(** One step: run the first statement of a [bind] with one of the
    equations above. *)
Ltac side_cond :=
  first [ heap_lookup | cbn [length]; lia | vm_compute; reflexivity ].

Ltac step_with lem :=
  erewrite bind_Ok; [| erewrite lem; [reflexivity | side_cond ..]];
  heap_norm.

Ltac step :=
  rewrite ?bind_assoc;
  first [ rewrite ret_bind
        | step_with new_dict_eq | step_with new_list_eq
        | step_with contains_eq | step_with get_opt_eq
        | step_with subscript_eq | step_with get_or_eq
        | step_with list_item_eq
        | step_with dict_copy_eq | step_with dict_store_eq
        | step_with dict_remove_eq
        | step_with list_extend_eq | step_with list_store_eq
        | step_with as_dict_eq | step_with as_list_eq
        | step_with is_dict_eq | step_with is_list_eq ].

(** ** The conditional simplifier *)

(** C6 (as the code has it): with [if], [then] and [else] all present (and
    none of them [None]), the simplifier returns a new
    [{'anyOf': [e, t]}] whose first branch [e] is
    [{'allOf': [side, {'not': A}, C]}] and whose second branch [t] is
    [{'allOf': [side, A, B]}], where [side] is a copy of the schema without
    the three keywords; the objects of the old store are left as they are. *)
Theorem simplify_if_then_else_branches
  (h : heap) (a : nat) (d : list (string * value)) (A B C : value) :
  h !! a = Some (ODict d) ->
  dict_get d "if" = Some A ->
  dict_get d "then" = Some B ->
  dict_get d "else" = Some C ->
  A <> VNone -> B <> VNone -> C <> VNone ->
  let n := length h in
  let side := dict_del (dict_del (dict_del d "if") "then") "else" in
  _simplify_if_then_else (VRef a) h =
    Ok (VRef (n + 7))
       (h ++ [ ODict side;
               OList [VRef (n + 4); VRef (n + 6)];
               ODict [("not", A)];
               OList [VRef (n + 0); VRef (n + 2); C];
               ODict [("allOf", VRef (n + 3))];
               OList [VRef (n + 0); A; B];
               ODict [("allOf", VRef (n + 5))];
               ODict [("anyOf", VRef (n + 1))] ]).
Proof.
  intros Ha Hif Hthen Helse HA HB HC n side.
  assert (Hthen' : dict_get (dict_del d "if") "then" = Some B)
    by (by rewrite dict_get_del_ne).
  assert (Helse' :
    dict_get (dict_del (dict_del d "if") "then") "else" = Some C)
    by (by rewrite !dict_get_del_ne).
  unfold _simplify_if_then_else.
  do 3 step. rewrite (dict_mem_get _ _ _ Hif). cbn [negb andb].
  step. rewrite <- (Nat.add_0_r (length h)).
  erewrite bind_Ok; [|erewrite dict_pop_eq by heap_lookup; rewrite Hif; reflexivity].
  heap_norm.
  erewrite bind_Ok; [|erewrite dict_pop_eq by heap_lookup; rewrite Hthen'; reflexivity].
  heap_norm.
  erewrite bind_Ok; [|erewrite dict_pop_eq by heap_lookup; rewrite Helse'; reflexivity].
  heap_norm.
  step.
  rewrite (is_none_false _ HA), (is_none_false _ HB), (is_none_false _ HC).
  cbn [negb andb].
  erewrite bind_Ok; [|do 3 step; erewrite list_extend_eq by heap_lookup; reflexivity].
  heap_norm.
  erewrite bind_Ok; [|do 2 step; erewrite list_extend_eq by heap_lookup; reflexivity].
  heap_norm.
  step. cbn [length Nat.eqb].
  rewrite new_dict_eq. heap_norm. reflexivity.
Qed.

(** ** A reference that leads back to itself *)

Lemma inline_refs_empty_dict (f : nat) (root : value) (h : heap) (a : nat) :
  h !! a = Some (ODict []) ->
  _inline_refs (S f) root (VRef a) h = Ok (VRef a, false) h.
Proof.
  intros Ha. cbn [_inline_refs].
  step. cbn [dict_mem dict_get]. step. cbn [fst snd fold_m].
  do 3 (step; cbn [dict_get]; step).
  step. step. cbn [dict_mem dict_get]. reflexivity.
Qed.

Lemma inline_refs_self_reference (f : nat) :
  forall (h : heap) (x : nat),
    ref_loop_store h ->
    h !! x = Some (ODict [("$ref", VStr "#/$defs/X")]) ->
    _inline_refs f (VRef 9) (VRef x) h = OutOfFuel.
Proof.
  induction f as [|f IH]; intros h x (H7 & H8 & H9) Hx; [reflexivity|].
  cbn [_inline_refs].
  step. cbn [dict_mem dict_get String.eqb Ascii.eqb Bool.eqb].
  rewrite <- (app_nil_r h) at 1.
  erewrite bind_Ok; cycle 1.
  { step. step. step.
    erewrite bind_Ok; cycle 1.
    { unfold resolve. cbn [as_str]. step.
      erewrite bind_Ok by (vm_compute; reflexivity).
      cbn [lookup_pointer]. unfold lookup_step.
      cbv [bind]. rewrite (lookup_old _ _ _ _ H9). cbn [dict_get String.eqb Ascii.eqb Bool.eqb].
      rewrite (lookup_old _ _ _ _ H8). cbn [dict_get String.eqb Ascii.eqb Bool.eqb].
      reflexivity. }
    do 2 step. reflexivity. }
  cbn [fst snd fold_m].
  step. cbn [dict_get String.eqb Ascii.eqb Bool.eqb]. step.
  step. cbn [dict_get String.eqb Ascii.eqb Bool.eqb].
  step. cbn [length seq fold_m].
  step.
  destruct f as [|f']; [by apply bind_OutOfFuel|].
  rewrite ?bind_assoc.
  erewrite bind_Ok by (apply inline_refs_empty_dict; heap_lookup).
  step. cbn [fst snd]. step. step.
  step.
  rewrite ?bind_assoc.
  apply bind_OutOfFuel. apply IH.
  - repeat split; by apply lookup_old.
  - by apply lookup_old.
Qed.

(** C2, evaluated: on [schema_ref_loop] the call of [normalize] never
    returns, whatever the fuel: [_inline_refs] follows the reference from
    [X] to [X] before any fingerprint is looked up. *)
Theorem normalize_ref_loop_diverges (fuel : nat) :
  run_on schema_ref_loop (normalize fuel) = OutOfFuel.
Proof.
  unfold run_on.
  replace (load schema_ref_loop globals) with
    (Ok (VRef 9) (globals ++
       [ODict [("$ref", VStr "#/$defs/X")]; ODict [("X", VRef 7)];
        ODict [("$defs", VRef 8); ("$ref", VStr "#/$defs/X")]]))
    by (vm_compute; reflexivity).
  set (h0 := globals ++ _).
  assert (E : normalize fuel (VRef 9) h0 = OutOfFuel); [|by rewrite E].
  unfold normalize.
  erewrite bind_Ok by (vm_compute; reflexivity). cbn [negb].
  erewrite bind_Ok by (vm_compute; reflexivity).
  erewrite bind_Ok by (vm_compute; reflexivity).
  erewrite bind_Ok by (vm_compute; reflexivity).
  apply bind_OutOfFuel.
  destruct fuel as [|f]; [reflexivity|].
  cbn [_normalize].
  erewrite bind_Ok by (vm_compute; reflexivity).
  erewrite bind_Ok by (vm_compute; reflexivity).
  cbn match.
  apply bind_OutOfFuel. apply inline_refs_self_reference.
  - repeat split; reflexivity.
  - reflexivity.
Qed.

(** ** More fuel changes nothing once a call has returned *)

Lemma le_out_refl {A} (o : outcome A) : le_out o o.
Proof. by right. Qed.

Lemma le_out_OutOfFuel {A} (o : outcome A) : le_out OutOfFuel o.
Proof. by left. Qed.

Lemma le_out_bind {A B} (m1 m2 : M A) (k1 k2 : A -> M B) (h : heap) :
  le_out (m1 h) (m2 h) ->
  (forall a h', le_out (k1 a h') (k2 a h')) ->
  le_out (bind m1 k1 h) (bind m2 k2 h).
Proof.
  unfold bind. intros [E|E] Hk; rewrite E; [by left|].
  destruct (m2 h); [apply Hk | by right | by right].
Qed.

Lemma le_out_for_each {A} (xs : list A) (b1 b2 : A -> M unit) :
  (forall x h, le_out (b1 x h) (b2 x h)) ->
  forall h, le_out (for_each xs b1 h) (for_each xs b2 h).
Proof.
  intros Hb. induction xs as [|x xs IH]; intros h; simpl; [by right|].
  apply le_out_bind; [apply Hb | intros; apply IH].
Qed.

Lemma le_out_fold_m {A S} (xs : list A) (b1 b2 : S -> A -> M S) :
  (forall s x h, le_out (b1 s x h) (b2 s x h)) ->
  forall s h, le_out (fold_m xs b1 s h) (fold_m xs b2 s h).
Proof.
  intros Hb. induction xs as [|x xs IH]; intros s h; simpl; [by right|].
  apply le_out_bind; [apply Hb | intros; apply IH].
Qed.

Lemma le_out_map_m {A B} (xs : list A) (f1 f2 : A -> M B) :
  (forall x h, le_out (f1 x h) (f2 x h)) ->
  forall h, le_out (map_m f1 xs h) (map_m f2 xs h).
Proof.
  intros Hf. induction xs as [|x xs IH]; intros h; simpl; [by right|].
  apply le_out_bind; [apply Hf | intros].
  apply le_out_bind; [apply IH | intros; by right].
Qed.

(** Goals of the form [le_out (body1 h) (body2 h)] where the two bodies
    differ in their recursive calls only. *)
Ltac le_out_tac tac :=
  repeat first
    [ tac
    | apply le_out_refl
    | apply le_out_bind; [| intros]
    | apply le_out_for_each; intros
    | apply le_out_fold_m; intros
    | apply le_out_map_m; intros
    | match goal with
      | |- le_out ((if ?b then _ else _) _) _ => destruct b
      | |- le_out ((match ?o with Some _ => _ | None => _ end) _) _ =>
          destruct o
      | |- le_out ((let (_, _) := ?o in _) _) _ => destruct o
      end ].

Lemma inline_refs_fuel (f : nat) :
  forall (g : nat) (root schema : value) (h : heap),
    f <= g ->
    le_out (_inline_refs f root schema h) (_inline_refs g root schema h).
Proof.
  induction f as [|f IH]; intros g root schema h Hle; [by left|].
  destruct g as [|g]; [lia|]. apply le_S_n in Hle.
  cbn [_inline_refs].
  destruct schema as [| [|] | | |]; le_out_tac ltac:(idtac; apply IH; exact Hle).
Qed.

Lemma to_dnf_fuel (f : nat) :
  forall (g : nat) (schema : value) (h : heap),
    f <= g -> le_out (_to_dnf f schema h) (_to_dnf g schema h).
Proof.
  induction f as [|f IH]; intros g schema h Hle; [by left|].
  destruct g as [|g]; [lia|]. apply le_S_n in Hle.
  cbn [_to_dnf].
  destruct schema as [| [|] | | |]; le_out_tac ltac:(idtac; apply IH; exact Hle).
Qed.

Lemma normalize_rec_fuel (f : nat) :
  forall (g : nat) (root new_refs schema : value) (h : heap),
    f <= g ->
    le_out (_normalize f root new_refs schema h)
           (_normalize g root new_refs schema h).
Proof.
  induction f as [|f IH]; intros g root new_refs schema h Hle; [by left|].
  destruct g as [|g]; [lia|]. apply le_S_n in Hle.
  cbn [_normalize].
  destruct schema as [| [|] | | |];
    le_out_tac ltac:(idtac; first [ apply IH; exact Hle
                           | apply inline_refs_fuel; exact Hle
                           | apply to_dnf_fuel; exact Hle ]).
Qed.

Lemma check_normalized_rec_fuel (f : nat) :
  forall (g : nat) (root schema : value) (checked : list string) (h : heap),
    f <= g ->
    le_out (_check_normalized f root schema checked h)
           (_check_normalized g root schema checked h).
Proof.
  induction f as [|f IH]; intros g root schema checked h Hle; [by left|].
  destruct g as [|g]; [lia|]. apply le_S_n in Hle.
  cbn [_check_normalized]. le_out_tac ltac:(idtac; apply IH; exact Hle).
Qed.

Lemma normalize_fuel_le (f f' : nat) (schema : value) (h : heap) :
  f <= f' -> le_out (normalize f schema h) (normalize f' schema h).
Proof.
  intros Hle. unfold normalize.
  destruct schema as [| [|] | | |];
    le_out_tac ltac:(idtac; apply normalize_rec_fuel; exact Hle).
Qed.

Lemma le_out_Ok {A} (o : outcome A) (a : A) (h : heap) :
  le_out (Ok a h) o -> o = Ok a h.
Proof. by intros [?|?]. Qed.

(** ** Empty [anyOf], for every fuel that lets the call return *)

(** C5 (as the code has it): on [{'anyOf': []}] the output is
    [{'anyOf': [{}], '$defs': {}}]: [merge_simple] skips the operand whose
    branch list is empty, so the unsatisfiable schema comes out as the
    single unconstrained branch. *)
Theorem normalize_empty_anyOf (n : nat) :
  view (run_on schema_any_empty (normalize (2 + n))) fst
  = Some (JObj [("anyOf", JArr [JObj []]); ("$defs", JObj [])]).
Proof.
  unfold run_on.
  destruct (load schema_any_empty globals) as [v h| |] eqn:El;
    [|by vm_compute in El..].
  assert (E2 : exists r h', normalize 2 v h = Ok r h'
            /\ read (S (length h')) h' (fst (r, v))
               = Some (JObj [("anyOf", JArr [JObj []]); ("$defs", JObj [])])).
  { vm_compute in El. injection El as <- <-. eexists _, _.
    split; vm_compute; reflexivity. }
  destruct E2 as (r & h' & E2 & Er).
  pose proof (normalize_fuel_le 2 (2 + n) v h ltac:(lia)) as Hle.
  rewrite E2 in Hle. apply le_out_Ok in Hle. rewrite Hle. exact Er.
Qed.

(** ** Reading a run backwards: what a returned call has done *)

Lemma bind_inv {A B} (m : M A) (k : A -> M B) (h h' : heap) (b : B) :
  bind m k h = Ok b h' ->
  exists a h1, m h = Ok a h1 /\ k a h1 = Ok b h'.
Proof. unfold bind. destruct (m h) as [a h1| |]; [eauto|done|done]. Qed.

Lemma ret_inv {A} (a b : A) (h h' : heap) :
  ret a h = Ok b h' -> b = a /\ h' = h.
Proof. by intros [= -> ->]. Qed.

Lemma alloc_inv (o : obj) (h h' : heap) (v : value) :
  alloc o h = Ok v h' -> v = VRef (length h) /\ h' = h ++ [o].
Proof. by intros [= <- <-]. Qed.

Lemma as_dict_inv (v : value) (h h' : heap) (d : list (string * value)) :
  as_dict v h = Ok d h' ->
  exists a, v = VRef a /\ h !! a = Some (ODict d) /\ h' = h.
Proof.
  unfold as_dict. destruct v as [| | | |a]; try done.
  destruct (h !! a) as [[d0|]|] eqn:E; try done. intros [= -> ->]. eauto.
Qed.

Lemma as_list_inv (v : value) (h h' : heap) (l : list value) :
  as_list v h = Ok l h' ->
  exists a, v = VRef a /\ h !! a = Some (OList l) /\ h' = h.
Proof.
  unfold as_list. destruct v as [| | | |a]; try done.
  destruct (h !! a) as [[|l0]|] eqn:E; try done. intros [= -> ->]. eauto.
Qed.

Lemma contains_inv (v : value) (k : string) (h h' : heap) (b : bool) :
  contains v k h = Ok b h' ->
  exists a d, v = VRef a /\ h !! a = Some (ODict d)
              /\ b = dict_mem d k /\ h' = h.
Proof.
  unfold contains. intros (d & h1 & H1 & H2)%bind_inv.
  apply as_dict_inv in H1 as (a & -> & Ha & ->).
  apply ret_inv in H2 as [-> ->]. eauto 6.
Qed.

Lemma get_opt_inv (v : value) (k : string) (h h' : heap) (o : option value) :
  get_opt v k h = Ok o h' ->
  exists a d, v = VRef a /\ h !! a = Some (ODict d)
              /\ o = dict_get d k /\ h' = h.
Proof.
  unfold get_opt. intros (d & h1 & H1 & H2)%bind_inv.
  apply as_dict_inv in H1 as (a & -> & Ha & ->).
  apply ret_inv in H2 as [-> ->]. eauto 6.
Qed.

Lemma subscript_inv (v : value) (k : string) (h h' : heap) (w : value) :
  subscript v k h = Ok w h' ->
  exists a d, v = VRef a /\ h !! a = Some (ODict d)
              /\ dict_get d k = Some w /\ h' = h.
Proof.
  unfold subscript. intros (d & h1 & H1 & H2)%bind_inv.
  apply as_dict_inv in H1 as (a & -> & Ha & ->).
  destruct (dict_get d k) as [w0|] eqn:E; [|done].
  apply ret_inv in H2 as [-> ->]. eauto 6.
Qed.

Lemma list_item_inv (v : value) (i : nat) (h h' : heap) (w : value) :
  list_item v i h = Ok w h' ->
  exists a l, v = VRef a /\ h !! a = Some (OList l)
              /\ l !! i = Some w /\ h' = h.
Proof.
  unfold list_item. intros (l & h1 & H1 & H2)%bind_inv.
  apply as_list_inv in H1 as (a & -> & Ha & ->).
  destruct (l !! i) as [w0|] eqn:E; [|done].
  apply ret_inv in H2 as [-> ->]. eauto 6.
Qed.

Lemma dict_store_inv (dv : value) (k : string) (v : value) (h h' : heap) (u : unit) :
  dict_store dv k v h = Ok u h' ->
  exists a d, dv = VRef a /\ h !! a = Some (ODict d)
              /\ h' = <[a := ODict (dict_set d k v)]> h.
Proof.
  unfold dict_store. destruct dv as [| | | |a]; try done.
  destruct (h !! a) as [[d|]|] eqn:E; try done. intros [= <-]. eauto.
Qed.

Lemma list_store_inv (lv : value) (i : nat) (v : value) (h h' : heap) (u : unit) :
  list_store lv i v h = Ok u h' ->
  exists a l, lv = VRef a /\ h !! a = Some (OList l) /\ i < length l
              /\ h' = <[a := OList (<[i := v]> l)]> h.
Proof.
  unfold list_store. destruct lv as [| | | |a]; try done.
  destruct (h !! a) as [[|l]|] eqn:E0; try done.
  destruct (Nat.ltb i (length l)) eqn:E; [|done].
  apply Nat.ltb_lt in E. intros [= <-]. eauto 6.
Qed.

Lemma list_extend_inv (lv : value) (xs : list value) (h h' : heap) (u : unit) :
  list_extend lv xs h = Ok u h' ->
  exists a l, lv = VRef a /\ h !! a = Some (OList l)
              /\ h' = <[a := OList (l ++ xs)]> h.
Proof.
  unfold list_extend. destruct lv as [| | | |a]; try done.
  destruct (h !! a) as [[|l]|] eqn:E; try done. intros [= <-]. eauto.
Qed.

Lemma dict_remove_inv (dv : value) (k : string) (h h' : heap) (u : unit) :
  dict_remove dv k h = Ok u h' ->
  exists a d, dv = VRef a /\ h !! a = Some (ODict d)
              /\ h' = <[a := ODict (dict_del d k)]> h.
Proof.
  unfold dict_remove. destruct dv as [| | | |a]; try done.
  destruct (h !! a) as [[d|]|] eqn:E; try done.
  destruct (dict_mem d k); [|done]. intros [= <-]. eauto.
Qed.

Lemma dict_copy_inv (dv : value) (h h' : heap) (v : value) :
  dict_copy dv h = Ok v h' ->
  exists a d, dv = VRef a /\ h !! a = Some (ODict d)
              /\ v = VRef (length h) /\ h' = h ++ [ODict d].
Proof.
  unfold dict_copy. intros (d & h1 & H1 & H2)%bind_inv.
  apply as_dict_inv in H1 as (a & -> & Ha & ->).
  apply alloc_inv in H2 as [-> ->]. eauto 6.
Qed.

Lemma is_dict_inv (v : value) (h h' : heap) (b : bool) :
  is_dict v h = Ok b h' ->
  h' = h /\ (b = true <-> exists a d, v = VRef a /\ h !! a = Some (ODict d)).
Proof.
  unfold is_dict. destruct v as [| | | |a];
    try (intros [= <- <-]; split; [done|]; split; [done|]; by intros (?&?&?&?)).
  destruct (h !! a) as [[d|l]|] eqn:E; intros [= <- <-]; split; try done;
    split; try done; eauto; intros (?&?&[= <-]&?); congruence.
Qed.

Lemma is_list_inv (v : value) (h h' : heap) (b : bool) :
  is_list v h = Ok b h' ->
  h' = h /\ (b = true <-> exists a l, v = VRef a /\ h !! a = Some (OList l)).
Proof.
  unfold is_list. destruct v as [| | | |a];
    try (intros [= <- <-]; split; [done|]; split; [done|]; by intros (?&?&?&?)).
  destruct (h !! a) as [[d|l]|] eqn:E; intros [= <- <-]; split; try done;
    split; try done; eauto; intros (?&?&[= <-]&?); congruence.
Qed.

(** ** Loops: induction over the elements already processed *)

Lemma fold_m_ind {A S} (xs : list A) (body : S -> A -> M S)
  (I : list A -> S -> heap -> Prop) :
  (forall done x rest s1 h1 s2 h2,
      xs = done ++ x :: rest -> I done s1 h1 ->
      body s1 x h1 = Ok s2 h2 -> I (done ++ [x]) s2 h2) ->
  forall s h s' h',
    I [] s h -> fold_m xs body s h = Ok s' h' -> I xs s' h'.
Proof.
  intros Hstep.
  assert (G : forall rest done s h s' h',
             xs = done ++ rest -> I done s h ->
             fold_m rest body s h = Ok s' h' -> I xs s' h').
  { induction rest as [|x rest IH]; intros done s h s' h' Hxs HI Hrun.
    - rewrite app_nil_r in Hxs. subst done.
      by apply ret_inv in Hrun as [-> ->].
    - simpl in Hrun. apply bind_inv in Hrun as (s2 & h2 & Hb & Hrun).
      eapply (IH (done ++ [x])); [by rewrite <- app_assoc| |exact Hrun].
      eapply Hstep; eauto. }
  intros s h s' h' HI Hrun. by eapply (G xs []).
Qed.

Lemma for_each_ind {A} (xs : list A) (body : A -> M unit)
  (I : list A -> heap -> Prop) :
  (forall done x rest h1 h2,
      xs = done ++ x :: rest -> I done h1 ->
      body x h1 = Ok tt h2 -> I (done ++ [x]) h2) ->
  forall h u h',
    I [] h -> for_each xs body h = Ok u h' -> I xs h'.
Proof.
  intros Hstep.
  assert (G : forall rest done h u h',
             xs = done ++ rest -> I done h ->
             for_each rest body h = Ok u h' -> I xs h').
  { induction rest as [|x rest IH]; intros done h u h' Hxs HI Hrun.
    - rewrite app_nil_r in Hxs. subst done.
      by apply ret_inv in Hrun as [-> ->].
    - simpl in Hrun. apply bind_inv in Hrun as ([] & h2 & Hb & Hrun).
      eapply (IH (done ++ [x])); [by rewrite <- app_assoc| |exact Hrun].
      eapply Hstep; eauto. }
  intros h u h' HI Hrun. by eapply (G xs []).
Qed.

Lemma map_m_ind {A B} (xs : list A) (f : A -> M B)
  (I : list A -> list B -> heap -> Prop) :
  (forall done x rest ys h1 y h2,
      xs = done ++ x :: rest -> I done ys h1 ->
      f x h1 = Ok y h2 -> I (done ++ [x]) (ys ++ [y]) h2) ->
  forall h ys h',
    I [] [] h -> map_m f xs h = Ok ys h' -> I xs ys h'.
Proof.
  intros Hstep.
  assert (G : forall rest done ys0 h ys h',
             xs = done ++ rest -> I done ys0 h ->
             map_m f rest h = Ok ys h' -> I xs (ys0 ++ ys) h').
  { induction rest as [|x rest IH]; intros done ys0 h ys h' Hxs HI Hrun.
    - rewrite app_nil_r in Hxs. subst done.
      apply ret_inv in Hrun as [-> ->]. by rewrite app_nil_r.
    - simpl in Hrun. apply bind_inv in Hrun as (y & h2 & Hb & Hrun).
      apply bind_inv in Hrun as (ys1 & h3 & Hrest & Hrun).
      apply ret_inv in Hrun as [-> ->].
      replace (ys0 ++ y :: ys1) with ((ys0 ++ [y]) ++ ys1)
        by (by rewrite <- app_assoc).
      eapply (IH (done ++ [x])); [by rewrite <- app_assoc| |exact Hrest].
      eapply Hstep; eauto. }
  intros h ys h' HI Hrun. by eapply (G xs [] []).
Qed.

(** ** The frame of [_inline_refs] is a preorder *)

Lemma inline_frame_refl (h : heap) : inline_frame h h.
Proof.
  split; [done|]. split.
  - intros a d Ha. exists d. auto.
  - intros a l Ha. exists l. auto.
Qed.

Lemma inline_frame_trans (h1 h2 h3 : heap) :
  inline_frame h1 h2 -> inline_frame h2 h3 -> inline_frame h1 h3.
Proof.
  intros (Hl1 & Hd1 & Hs1) (Hl2 & Hd2 & Hs2).
  split; [lia|]. split.
  - intros a d Ha.
    destruct (Hd1 a d Ha) as (d' & Ha' & Hk & Hn).
    destruct (Hd2 a d' Ha') as (d'' & Ha'' & Hk' & Hn').
    exists d''. split; [done|]. split.
    + intros k Hne. by rewrite Hk', Hk.
    + destruct Hn' as [E|?]; [|by right]. rewrite E. exact Hn.
  - intros a l Ha.
    destruct (Hs1 a l Ha) as (l' & Ha' & Hlen & Hi).
    destruct (Hs2 a l' Ha') as (l'' & Ha'' & Hlen' & Hi').
    exists l''. split; [done|]. split; [lia|].
    intros i. destruct (Hi' i) as [E|?]; [|by right]. rewrite E. apply Hi.
Qed.

Lemma inline_frame_alloc (h : heap) (o : obj) : inline_frame h (h ++ [o]).
Proof.
  split; [rewrite length_app; lia|]. split.
  - intros a d Ha. exists d. split; [by apply lookup_old|auto].
  - intros a l Ha. exists l. split; [by apply lookup_old|auto].
Qed.

Lemma inline_frame_list_store (h : heap) (a : nat) (l : list value)
  (i c : nat) :
  h !! a = Some (OList l) ->
  inline_frame h (<[a := OList (<[i := VRef c]> l)]> h).
Proof.
  intros Ha. split; [by rewrite length_insert|]. split.
  - intros b d Hb. exists d. split; [|auto].
    rewrite list_lookup_insert_ne; [done|]. intros ->. congruence.
  - intros b l0 Hb. destruct (decide (b = a)) as [->|Hne].
    + assert (l0 = l) as -> by congruence.
      exists (<[i := VRef c]> l). split.
      { apply list_lookup_insert_eq. by eapply lookup_lt_Some. }
      split; [by rewrite length_insert|].
      intros j. destruct (decide (j = i)) as [->|Hj].
      * destruct (decide (i < length l)) as [Hlt|Hge].
        -- right. exists c. by apply list_lookup_insert_eq.
        -- left. by rewrite list_insert_ge by lia.
      * left. by rewrite list_lookup_insert_ne.
    + exists l0. split; [by rewrite list_lookup_insert_ne|auto].
Qed.
(** * Properties *)

(** ** The entry point on boolean schemas *)

(** C3 (as the code has it): [normalize(True)] is a new empty dict and
    [normalize(False)] is a new dict [{'type': []}]; neither carries a
    [$defs] key, whatever the store and the fuel. *)
Theorem normalize_bool_sentinels (fuel : nat) (h : heap) :
  normalize fuel (VBool true) h = Ok (VRef (length h)) (h ++ [ODict []])
  /\ normalize fuel (VBool false) h =
       Ok (VRef (S (length h)))
          (h ++ [OList []; ODict [("type", VRef (length h))]]).
Proof.
  split; [reflexivity|].
  unfold normalize, bind, new_list, new_dict, alloc.
  rewrite length_app, <- app_assoc. simpl.
  replace (length h + 1) with (S (length h)) by lia. reflexivity.
Qed.

(** C3, refuted as stated: [normalize(True)] is not [{$defs: {}}]. *)
Lemma normalize_true_has_no_defs :
  view (run_on (JBool true) (normalize 5)) fst = Some (JObj [])
  /\ view (run_on (JBool false) (normalize 5)) fst
     = Some (JObj [("type", JArr [])]).
Proof. split; reflexivity. Qed.

(** ** Mutation of the input *)

(** C4, evaluated: after [normalize({'anyOf': [True]})] the caller's schema
    reads [{'anyOf': [{'anyOf': [{}]}]}]: [_inline_refs] stored [NORM_TRUE]
    into the list that the shallow copy shares with the input. *)
Theorem normalize_mutates_input :
  view (run_on schema_any_true (fun v => ret v)) snd = Some schema_any_true
  /\ view (run_on schema_any_true (normalize 5)) snd
     = Some (JObj [("anyOf", JArr [JObj [("anyOf", JArr [JObj []])]])]).
Proof. split; vm_compute; reflexivity. Qed.

(** ** The checker on the sentinels *)

(** C1, refuted as stated: [check_normalized(normalize(True))] raises. *)
Lemma check_rejects_normalize_true :
  result_of (run_on (JBool true)
               (fun v => r <- normalize 5 v ;; check_normalized 5 r))
  = Some (NormalizationException OneKeyNotAnyOf).
Proof. vm_compute. reflexivity. Qed.

(** ** Empty [anyOf] *)

(** C5, refuted as stated: the empty branch list of [{'anyOf': []}] becomes
    the single unconstrained branch. *)
Lemma empty_anyOf_does_not_survive :
  view (run_on schema_any_empty (normalize 5)) fst
  = Some (JObj [("anyOf", JArr [JObj []]); ("$defs", JObj [])]).
Proof. vm_compute. reflexivity. Qed.

(** ** The conditional simplifier on an instance *)

Lemma simplify_if_then_else_witness :
  _simplify_if_then_else (VRef 0)
    [ODict [("if", VBool true); ("then", VBool true); ("else", VBool false)]]
  = Ok (VRef 8)
      [ ODict [("if", VBool true); ("then", VBool true); ("else", VBool false)];
        ODict [];
        OList [VRef 5; VRef 7];
        ODict [("not", VBool true)];
        OList [VRef 1; VRef 3; VBool false];
        ODict [("allOf", VRef 4)];
        OList [VRef 1; VBool true; VBool true];
        ODict [("allOf", VRef 6)];
        ODict [("anyOf", VRef 2)] ].
Proof.
  exact (simplify_if_then_else_branches
           [ODict [("if", VBool true); ("then", VBool true);
                   ("else", VBool false)]]
           0 _ (VBool true) (VBool true) (VBool false)
           eq_refl eq_refl eq_refl eq_refl
           ltac:(discriminate) ltac:(discriminate) ltac:(discriminate)).
Defined.

(** C6, refuted as stated: the first branch is the [else] branch
    [[side, {'not': A}, C]], the [then] branch [[side, A, B]] comes second. *)
Lemma simplify_emits_else_branch_first :
  view (run_on schema_if_then_else _simplify_if_then_else) fst
  = Some (JObj [("anyOf", JArr [
       JObj [("allOf", JArr [JObj [];
                             JObj [("not", JObj [("type", JStr "string")])];
                             JObj [("minimum", JNum 0)]])];
       JObj [("allOf", JArr [JObj [];
                             JObj [("type", JStr "string")];
                             JObj [("minLength", JNum 1)]])]])]).
Proof. vm_compute. reflexivity. Qed.

(** ** Fingerprints and key order *)

Lemma sequence_map_dumps (f : nat) (h : heap) (l : list value) (js : list json) :
  (forall v t, read f h v = Some t -> dumps f h v = Some (dumps_json t)) ->
  sequence (map (read f h) l) = Some js ->
  sequence (map (dumps f h) l) = Some (map dumps_json js).
Proof.
  intros IH. revert js. induction l as [|v l IHl]; intros js; simpl.
  - by intros [= <-].
  - destruct (read f h v) as [t|] eqn:Ev; [|done].
    destruct (sequence (map (read f h) l)) as [ts|] eqn:El; [|done].
    intros [= <-]. rewrite (IH _ _ Ev), (IHl _ eq_refl). reflexivity.
Qed.

Lemma sequence_map_dumps_entries (f : nat) (h : heap)
  (d : list (string * value)) (js : list (string * json)) :
  (forall v t, read f h v = Some t -> dumps f h v = Some (dumps_json t)) ->
  sequence (map (fun kv => match read f h (snd kv) with
                           | Some j => Some (fst kv, j)
                           | None => None
                           end) d) = Some js ->
  sequence (map (fun kv => match dumps f h (snd kv) with
                           | Some s => Some (quote (fst kv) +:+ ": " +:+ s)
                           | None => None
                           end) d)
  = Some (map (fun kv => quote (fst kv) +:+ ": " +:+ dumps_json (snd kv)) js).
Proof.
  intros IH. revert js. induction d as [|[k v] d IHd]; intros js; simpl.
  - by intros [= <-].
  - destruct (read f h v) as [t|] eqn:Ev; [|done].
    destruct (sequence (map _ d)) as [ts|] eqn:Ed; [|done].
    intros [= <-]. rewrite (IH _ _ Ev), (IHd _ eq_refl). reflexivity.
Qed.

Lemma dumps_of_read (f : nat) (h : heap) :
  forall (v : value) (t : json),
    read f h v = Some t -> dumps f h v = Some (dumps_json t).
Proof.
  induction f as [|f IH]; intros v t; [done|].
  destruct v as [| [|] | n | s | a]; simpl; try by intros [= <-].
  destruct (h !! a) as [[d|l]|]; [| |done].
  - destruct (sequence (map _ d)) as [js|] eqn:E; [|done].
    intros [= <-]. by rewrite (sequence_map_dumps_entries _ _ _ _ IH E).
  - destruct (sequence (map _ l)) as [js|] eqn:E; [|done].
    intros [= <-]. by rewrite (sequence_map_dumps _ _ _ _ IH E).
Qed.

(** C9 (as the code has it): the fingerprint is the SHA-1 of [json.dumps]
    of the schema with its keys in insertion order.  Two schemas that read
    back as the same tree, keys in the same order, get the same fingerprint
    in whatever stores they live. *)
Theorem fingerprint_of_ordered_content
  (h1 h2 : heap) (v1 v2 : value) (t : json) :
  read (S (length h1)) h1 v1 = Some t ->
  read (S (length h2)) h2 v2 = Some t ->
  fingerprint v1 h1 = Ok (SHA1.hexdigest (dumps_json t)) h1
  /\ fingerprint v2 h2 = Ok (SHA1.hexdigest (dumps_json t)) h2.
Proof.
  intros H1 H2. unfold fingerprint, json_dumps, bind.
  by rewrite (dumps_of_read _ _ _ _ H1), (dumps_of_read _ _ _ _ H2).
Qed.

Lemma fingerprint_of_ordered_content_witness :
  fingerprint (VRef 1) [OList [VBool true]; ODict [("anyOf", VRef 0)]]
  = Ok (SHA1.hexdigest (dumps_json schema_any_true))
       [OList [VBool true]; ODict [("anyOf", VRef 0)]]
  /\ fingerprint (VRef 0) [ODict [("anyOf", VRef 2)]; ODict []; OList [VBool true]]
     = Ok (SHA1.hexdigest (dumps_json schema_any_true))
          [ODict [("anyOf", VRef 2)]; ODict []; OList [VBool true]].
Proof.
  exact (fingerprint_of_ordered_content
           [OList [VBool true]; ODict [("anyOf", VRef 0)]]
           [ODict [("anyOf", VRef 2)]; ODict []; OList [VBool true]]
           (VRef 1) (VRef 0) schema_any_true eq_refl eq_refl).
Defined.

(** C9, refuted as stated: [schema_order_1] and [schema_order_2] are equal
    as JSON values, and their outputs carry different [$defs] keys. *)
Lemma key_order_changes_defs_keys :
  defs_keys (view (run_on schema_order_1 (normalize 5)) fst)
  = ["6bef59d36c7e9d564011a7ef7b7e37c41c589387"]
  /\ defs_keys (view (run_on schema_order_2 (normalize 5)) fst)
     = ["24985112406ef50f91829ac551ed28dcd6460933"].
Proof. split; vm_compute; reflexivity. Qed.
